(** * neural_clbf: the Crazyflie control-affine system and the S-curve
    scenario list

    A shallow embedding of [neural_clbf/systems/crazyflie.py] and of the
    scenario-building part of
    [neural_clbf/experiments/data_generation/stcar_s_curve_save_clbf_qp_data.py].

    Python floats and the entries of float tensors are real numbers
    ([R]); rounding, NaN and Inf are outside the model.  A Python call
    either returns a value or raises: [result].  Tensors carry their
    shape, because several statements of the source are decided by
    shapes alone. *)

From Stdlib Require Import Reals Lra.
From stdpp Require Import gmap strings list.

Set Default Proof Using "Type".

(** ** Python exceptions and results *)

Inductive PyExc : Set :=
  | TypeError
  | NameError
  | KeyError
  | IndexError
  | RuntimeError
  | InvalidParameterError.

Inductive result (A : Type) : Type :=
  | Ok (a : A)
  | Raise (e : PyExc).
Arguments Ok {A} a.
Arguments Raise {A} e.

#[global] Instance result_ret : MRet result := λ A a, Ok a.
#[global] Instance result_bind : MBind result :=
  λ A B k r, match r with Ok a => k a | Raise e => Raise e end.

Definition is_Ok {A} (r : result A) : Prop := ∃ a, r = Ok a.

(** ** Scalars *)

Definition Rleb (a b : R) : bool := if Rle_dec a b then true else false.
Definition Rltb (a b : R) : bool := if Rlt_dec a b then true else false.
Definition Rgeb (a b : R) : bool := Rleb b a.
Definition Rgtb (a b : R) : bool := Rltb b a.

(** ** Scenarios: [Dict[str, float]] *)

Abbreviation Scenario := (gmap string R).

(** [key in params] *)
Definition dict_contains (params : Scenario) (key : string) : bool :=
  bool_decide (is_Some (params !! key)).

(** [params[key]]: a missing key raises [KeyError]. *)
Definition dict_getitem (params : Scenario) (key : string) : result R :=
  match params !! key with
  | Some v => Ok v
  | None => Raise KeyError
  end.

(** Python's [a and b]: [b] is evaluated only when [a] is true. *)
Definition py_and (a : bool) (b : unit → result bool) : result bool :=
  if a then b () else Ok a.

(** ** Tensors *)

Record Tensor (A : Type) : Type := mkTensor {
  shape : list nat;
  data : list A   (* row-major *)
}.
Arguments mkTensor {A} shape data.
Arguments shape {A} t.
Arguments data {A} t.

Definition numel (s : list nat) : nat := foldr Nat.mul 1 s.

Definition wf_tensor {A} (t : Tensor A) : Prop :=
  length (data t) = numel (shape t).

(** The first [n] consecutive blocks of [k] entries. *)
Fixpoint chunks {A} (n k : nat) (l : list A) : list (list A) :=
  match n with
  | 0 => []
  | S n' => take k l :: chunks n' k (drop k l)
  end.

(** [torch.zeros(shape)], [torch.ones(shape)] *)
Definition zeros (s : list nat) : Tensor R := mkTensor s (replicate (numel s) 0%R).
Definition ones (s : list nat) : Tensor R := mkTensor s (replicate (numel s) 1%R).

(** [torch.ones_like(t, dtype=torch.bool)] *)
Definition ones_like_bool {A} (t : Tensor A) : Tensor bool :=
  mkTensor (shape t) (replicate (numel (shape t)) true).

(** A Python scalar used as a tensor operand: a tensor with no dimension. *)
Definition scalar_tensor {A} (c : A) : Tensor A := mkTensor [] [c].

Definition tmap {A B} (f : A → B) (t : Tensor A) : Tensor B :=
  mkTensor (shape t) (f <$> data t).

(** *** Broadcasting

    Shapes are aligned at their last dimension; a dimension of the
    operand must equal the target's or be 1, and the operand cannot have
    more dimensions than the target. *)

Fixpoint expandable_rev (s t : list nat) : bool :=
  match s, t with
  | [], _ => true
  | _ :: _, [] => false
  | a :: s', b :: t' => ((a =? b) || (a =? 1)) && expandable_rev s' t'
  end.

Definition expandable (s t : list nat) : bool :=
  expandable_rev (reverse s) (reverse t).

(** Data of shape [s] repeated to shape [t], for [s] and [t] of the same
    length with [expandable s t]. *)
Fixpoint expand_data {A} (s t : list nat) (d : list A) : list A :=
  match s, t with
  | ds :: s', dt :: t' =>
      let blocks := expand_data s' t' <$> chunks ds (numel s') d in
      if ds =? dt then concat blocks else concat (replicate dt (concat blocks))
  | _, _ => d
  end.

Definition pad_shape (s t : list nat) : list nat :=
  replicate (length t - length s) 1 ++ s.

(** [t.expand(target)]: fails with [RuntimeError] when [t] cannot be
    broadcast to [target]. *)
Definition expand_to {A} (t : Tensor A) (target : list nat) : result (Tensor A) :=
  if expandable (shape t) target
  then Ok (mkTensor target (expand_data (pad_shape (shape t) target) target (data t)))
  else Raise RuntimeError.

(** The shape two operands broadcast to, on reversed shapes. *)
Fixpoint broadcast_shape_rev (s t : list nat) : option (list nat) :=
  match s, t with
  | [], _ => Some t
  | _, [] => Some s
  | a :: s', b :: t' =>
      if a =? b then (a ::.) <$> broadcast_shape_rev s' t'
      else if a =? 1 then (b ::.) <$> broadcast_shape_rev s' t'
      else if b =? 1 then (a ::.) <$> broadcast_shape_rev s' t'
      else None
  end.

Definition broadcast_shape (s t : list nat) : option (list nat) :=
  reverse <$> broadcast_shape_rev (reverse s) (reverse t).

(** An elementwise binary operation on two tensors. *)
Definition tensor_binop {A B C} (f : A → B → C) (a : Tensor A) (b : Tensor B)
    : result (Tensor C) :=
  match broadcast_shape (shape a) (shape b) with
  | Some sh =>
      a' ← expand_to a sh;
      b' ← expand_to b sh;
      Ok (mkTensor sh (zip_with f (data a') (data b')))
  | None => Raise RuntimeError
  end.

(** [a.logical_and_(b)]: in place, so the result keeps the shape of [a]
    and [b] must broadcast to it. *)
Definition logical_and_ (a b : Tensor bool) : result (Tensor bool) :=
  b' ← expand_to b (shape a);
  Ok (mkTensor (shape a) (zip_with andb (data a) (data b'))).

(** *** Indexing

    [t[:, i]]: the tensor needs at least two dimensions and [i] must be
    within the second one, otherwise [IndexError]. *)
Definition index_dim1 {A} (t : Tensor A) (i : nat) : result (Tensor A) :=
  match shape t with
  | d0 :: d1 :: rest =>
      if decide (i < d1) then
        let k := numel rest in
        Ok (mkTensor (d0 :: rest)
              (concat ((λ row, take k (drop (i * k) row)) <$> chunks d0 (d1 * k) (data t))))
      else Raise IndexError
  | _ => Raise IndexError
  end.

(** [t.shape[0]] *)
Definition shape0 {A} (t : Tensor A) : result nat :=
  match shape t with
  | d0 :: _ => Ok d0
  | [] => Raise IndexError
  end.

(** Leading dimensions of size 1 of an assigned value are dropped
    before it is broadcast to the indexed view. *)
Fixpoint strip_ones (s : list nat) : list nat :=
  match s with
  | 1 :: s' => strip_ones s'
  | _ => s
  end.

(** [t[:, i] = v]: the view [t[:, i]] has the shape of [t] without its
    second dimension; [v] is broadcast to it, and a value that cannot be
    broadcast raises [RuntimeError].  The tensor keeps its shape. *)
Definition setitem_dim1 {A} (t : Tensor A) (i : nat) (v : Tensor A) : result (Tensor A) :=
  match shape t with
  | d0 :: d1 :: rest =>
      if decide (i < d1) then
        let k := numel rest in
        src ← expand_to (mkTensor (strip_ones (shape v)) (data v)) (d0 :: rest);
        Ok (mkTensor (shape t)
              (concat (zip_with (λ row s, take (i * k) row ++ s ++ drop ((i + 1) * k) row)
                         (chunks d0 (d1 * k) (data t)) (chunks d0 k (data src)))))
      else Raise IndexError
  | _ => Raise IndexError
  end.

(** [t[:, i, j] = v]: entry [(i, j)] of the second and third dimension is
    entry [i * d2 + j] of the two taken together. *)
Definition setitem_dim12 {A} (t : Tensor A) (i j : nat) (v : Tensor A) : result (Tensor A) :=
  match shape t with
  | d0 :: d1 :: d2 :: rest =>
      if decide (i < d1 ∧ j < d2) then
        r ← setitem_dim1 (mkTensor (d0 :: d1 * d2 :: rest) (data t)) (i * d2 + j) v;
        Ok (mkTensor (shape t) (data r))
      else Raise IndexError
  | _ => Raise IndexError
  end.

(** [t[i] = c] on a vector. *)
Definition setitem_vec {A} (t : Tensor A) (i : nat) (c : A) : result (Tensor A) :=
  match shape t with
  | [n] => if decide (i < n) then Ok (mkTensor [n] (<[i := c]> (data t))) else Raise IndexError
  | _ => Raise IndexError
  end.

(** [t[i, j] = c] on a matrix. *)
Definition setitem_elem2 {A} (t : Tensor A) (i j : nat) (c : A) : result (Tensor A) :=
  match shape t with
  | [d0; d1] =>
      if decide (i < d0 ∧ j < d1)
      then Ok (mkTensor [d0; d1] (<[i * d1 + j := c]> (data t)))
      else Raise IndexError
  | _ => Raise IndexError
  end.

(** *** Reductions and elementwise functions *)

Definition vec_norm (row : list R) : R :=
  sqrt (foldr (λ v acc, v * v + acc)%R 0%R row).

(** [t.norm(dim=-1)]: the Euclidean norm along the last dimension. *)
Definition norm_last (t : Tensor R) : Tensor R :=
  match reverse (shape t) with
  | [] => mkTensor [] (vec_norm <$> chunks 1 1 (data t))
  | n :: pre => mkTensor (reverse pre) (vec_norm <$> chunks (numel pre) n (data t))
  end.

(** [t.norm()]: the norm of all the entries, a tensor with no dimension. *)
Definition norm_all (t : Tensor R) : Tensor R := mkTensor [] [vec_norm (data t)].

(** Comparison of a tensor with a Python number. *)
Definition tle (t : Tensor R) (c : R) : Tensor bool := tmap (λ v, Rleb v c) t.
Definition tge (t : Tensor R) (c : R) : Tensor bool := tmap (λ v, Rgeb v c) t.
Definition tlt (t : Tensor R) (c : R) : Tensor bool := tmap (λ v, Rltb v c) t.
Definition tgt (t : Tensor R) (c : R) : Tensor bool := tmap (λ v, Rgtb v c) t.

Definition torch_sin : Tensor R → Tensor R := tmap sin.
Definition torch_cos : Tensor R → Tensor R := tmap cos.
Definition tneg : Tensor R → Tensor R := tmap Ropp.
Definition tmul : Tensor R → Tensor R → result (Tensor R) := tensor_binop Rmult.
Definition tdiv : Tensor R → Tensor R → result (Tensor R) := tensor_binop Rdiv.
(** [t / m] for a Python number [m]; division by zero does not raise. *)
Definition tdiv_scalar (t : Tensor R) (m : R) : Tensor R := tmap (λ v, v / m)%R t.

(** *** [torch.logical_and] and [torch.logical_or]

    Both have the signature [(input, other, *, out=None)]: exactly two
    positional parameters, [out] being keyword-only.  A call with any
    other number of positional arguments raises [TypeError]. *)
Definition torch_logical_and (args : list (Tensor bool)) : result (Tensor bool) :=
  match args with
  | [input; other] => tensor_binop andb input other
  | _ => Raise TypeError
  end.

Definition torch_logical_or (args : list (Tensor bool)) : result (Tensor bool) :=
  match args with
  | [input; other] => tensor_binop orb input other
  | _ => Raise TypeError
  end.

(** ** [class ControlAffineSystem] *)

Module ControlAffineSystem.

(** Modelled from the spec: the attributes that the base class keeps
    for an instance ([nominal_params], [dt], [controller_dt]); the
    class itself is not among the sources. *)
Record t : Type := mkSystem {
  nominal_params : Scenario;
  dt : R;
  controller_dt : R
}.

Section Init.
(** The subclass's [validate_params], reached through [self]. *)
Variable validate_params : Scenario → result bool.
(** Whatever construction does once the parameters are accepted (the
    cached equilibrium values, the use made of [scenarios]); every
    tensor operation of the constructor is in here. *)
Variable finish_init : t → option (list Scenario) → result t.

(** Modelled from the spec: [ControlAffineSystem.__init__]
    ([control_affine_system.py] is not among the sources).  The
    nominal scenario is validated at construction, which fails with
    [InvalidParameterError] if the validation predicate returns false;
    [controller_dt] defaults to [dt]. *)
Definition __init__ (nominal_params : Scenario) (dt : R)
    (controller_dt : option R) (scenarios : option (list Scenario)) : result t :=
  validate_params nominal_params ≫= λ valid : bool,
    if valid
    then finish_init (mkSystem nominal_params dt (default dt controller_dt)) scenarios
    else Raise InvalidParameterError.
End Init.

End ControlAffineSystem.

(** ** [class Crazyflie(ControlAffineSystem)] *)

Module Crazyflie.

(** Number of states and controls *)
Definition N_DIMS : nat := 6.
Definition N_CONTROLS : nat := 4.

(** State indices *)
Definition X : nat := 0.
Definition Y : nat := 1.
Definition Z : nat := 2.
Definition VX : nat := 3.
Definition VY : nat := 4.
Definition VZ : nat := 5.

(** Control indices *)
Definition F : nat := 0.
Definition PHI : nat := 1.
Definition THETA : nat := 2.
Definition PSI : nat := 3.

Definition n_dims : nat := N_DIMS.
Definition n_controls : nat := N_CONTROLS.

(** The names bound at module level in [crazyflie.py]: its imports and
    the class it defines. *)
Definition module_globals : list string :=
  ["Tuple"; "Optional"; "List"; "torch"; "np"; "ControlAffineSystem";
   "Scenario"; "ScenarioList"; "Crazyflie"]%string.

(** Evaluation of a global name: a name that is not bound raises
    [NameError]. *)
Definition load_global (name : string) : result unit :=
  if bool_decide (name ∈ module_globals) then Ok () else Raise NameError.

(** [validate_params(self, params)] *)
Definition validate_params (params : Scenario) : result bool :=
  let valid := true in
  (* Make sure all needed parameters were provided *)
  valid ← py_and valid (λ _, Ok (dict_contains params "m"));
  (* Make sure all parameters are physically valid *)
  valid ← py_and valid (λ _, m ← dict_getitem params "m"; Ok (Rgtb m 0));
  Ok valid.

(** [__init__(self, nominal_params, dt=0.01, controller_dt=None,
    scenarios=None)]: the arguments are handed to the constructor of
    the base class. *)
Definition __init__ (finish_init : ControlAffineSystem.t → option (list Scenario) →
                                   result ControlAffineSystem.t)
    (nominal_params : Scenario) (dt : R) (controller_dt : option R)
    (scenarios : option (list Scenario)) : result ControlAffineSystem.t :=
  ControlAffineSystem.__init__ validate_params finish_init
    nominal_params dt controller_dt scenarios.

(** [state_limits]: the pair [(upper_limit, lower_limit)]. *)
Definition state_limits : result (Tensor R * Tensor R) :=
  let upper_limit := ones [n_dims] in
  upper_limit ← setitem_vec upper_limit X 4%R;
  upper_limit ← setitem_vec upper_limit Y 4%R;
  upper_limit ← setitem_vec upper_limit Z 4%R;
  upper_limit ← setitem_vec upper_limit VX 8%R;
  upper_limit ← setitem_vec upper_limit VY 8%R;
  upper_limit ← setitem_vec upper_limit VZ 8%R;
  let lower_limit := tmap (λ v, -1 * v)%R upper_limit in
  lower_limit ← setitem_vec lower_limit Z 0%R;
  Ok (upper_limit, lower_limit).

(** [angle_dims] *)
Definition angle_dims : list nat := [].


(** [distance_to_goal(self, x)] *)
Definition distance_to_goal (x : Tensor R) : result (Tensor R) :=
  limits ← state_limits;
  let upper_limit := limits.1 in
  tdiv (norm_last x) (norm_all upper_limit).

(** The arguments of the call in [safe_mask], evaluated left to right:
    [x[:, Z] <= safe_z_ceiling], [x[:, Z] >= safe_z_floor] and
    [x.norm(dim=-1) <= safe_radius]. *)
Definition safe_mask_args (x : Tensor R) : result (list (Tensor bool)) :=
  let safe_z_floor := 0.3%R in
  let safe_z_ceiling := 4.0%R in
  let safe_radius := 4%R in
  xz ← index_dim1 x Z;
  let below_ceiling := tle xz safe_z_ceiling in
  xz ← index_dim1 x Z;
  let above_floor := tge xz safe_z_floor in
  let inside_radius := tle (norm_last x) safe_radius in
  Ok [below_ceiling; above_floor; inside_radius].

(** [safe_mask(self, x)]: the three masks are passed to
    [torch.logical_and] as three positional arguments. *)
Definition safe_mask (x : Tensor R) : result (Tensor bool) :=
  args ← safe_mask_args x;
  safe_mask ← torch_logical_and args;
  Ok safe_mask.

(** The arguments of the call in [unsafe_mask]: [x[:, Z] < unsafe_z_floor],
    [x[:, Z] > unsafe_z_ceiling] and [x.norm(dim=-1) > unsafe_radius]. *)
Definition unsafe_mask_args (x : Tensor R) : result (list (Tensor bool)) :=
  let unsafe_z_floor := 0.3%R in
  let unsafe_z_ceiling := 4.0%R in
  let unsafe_radius := 3.5%R in
  xz ← index_dim1 x Z;
  let below_floor := tlt xz unsafe_z_floor in
  xz ← index_dim1 x Z;
  let above_ceiling := tgt xz unsafe_z_ceiling in
  let outside_radius := tgt (norm_last x) unsafe_radius in
  Ok [below_floor; above_ceiling; outside_radius].

(** [unsafe_mask(self, x)]: the body assigns the result of
    [torch.logical_or] to a local variable and ends without a [return],
    so a call that does not raise returns Python's [None], written
    [Ok None] here. *)
Definition unsafe_mask (x : Tensor R) : result (option (Tensor bool)) :=
  args ← unsafe_mask_args x;
  unsafe_mask ← torch_logical_or args;
  Ok None.

(** [goal_mask(self, x)] *)
Definition goal_mask (x : Tensor R) : result (Tensor bool) :=
  x0 ← index_dim1 x 0;
  let goal_mask := ones_like_bool x0 in
  (* Define the goal region as being near the goal *)
  let near_goal := tle (norm_last x) 0.3%R in
  goal_mask ← logical_and_ goal_mask near_goal;
  (* The goal set has to be a subset of the safe set *)
  safe ← safe_mask x;
  goal_mask ← logical_and_ goal_mask safe;
  Ok goal_mask.

(** [_f(self, x, params)] *)
Definition _f (x : Tensor R) (params : Scenario) : result (Tensor R) :=
  batch_size ← shape0 x;
  let f := zeros [batch_size; n_dims; 1] in
  (* Derivatives of positions are just velocities *)
  v ← index_dim1 x VX; f ← setitem_dim1 f X v;
  v ← index_dim1 x VY; f ← setitem_dim1 f Y v;
  v ← index_dim1 x VZ; f ← setitem_dim1 f Z v;
  (* Constant acceleration in z due to gravity *)
  f ← setitem_dim1 f VZ (scalar_tensor (-9.81)%R);
  Ok f.

(** [_g(self, x, params)].  The state is indexed with the control
    indices [THETA] and [PHI], and the last assignment names the global
    [Crazuflie], as the source does. *)
Definition _g (x : Tensor R) (params : Scenario) : result (Tensor R) :=
  batch_size ← shape0 x;
  let g := zeros [batch_size; n_dims; n_controls] in
  (* Extract the needed parameters *)
  m ← dict_getitem params "m";
  (* Derivatives of linear velocities depend on thrust f *)
  s_theta ← (v ← index_dim1 x THETA; Ok (torch_sin v));
  c_theta ← (v ← index_dim1 x THETA; Ok (torch_cos v));
  s_phi ← (v ← index_dim1 x PHI; Ok (torch_sin v));
  c_phi ← (v ← index_dim1 x PHI; Ok (torch_cos v));
  g ← setitem_dim12 g VX F (tdiv_scalar s_theta m);
  v ← tmul (tneg s_phi) c_theta;
  g ← setitem_dim12 g VY F (tdiv_scalar v m);
  v ← tmul c_phi c_theta;
  _ ← load_global "Crazuflie";
  g ← setitem_dim12 g VZ F (tdiv_scalar v m);
  Ok g.

(** [u_eq] *)
Definition u_eq (self : ControlAffineSystem.t) : result (Tensor R) :=
  let u_eq := zeros [1; n_controls] in
  m ← dict_getitem (ControlAffineSystem.nominal_params self) "m";
  u_eq ← setitem_elem2 u_eq 0 F (m * 9.81)%R;
  Ok u_eq.

End Crazyflie.

(** ** [stcar_s_curve_save_clbf_qp_data.py]: the scenarios of [doMain]

    Dictionaries are objects: a variable holds a reference, and the
    store maps each reference to the mapping the object currently
    holds.  [copy] allocates a new object, item assignment changes the
    object a reference points to. *)

Module StcarSCurve.

Abbreviation ref := nat.
Abbreviation store := (gmap nat (gmap string R)).

(** A dictionary display [{...}]: a new object. *)
Definition new_dict (h : store) (d : Scenario) : ref * store :=
  let l := fresh (dom h) in (l, <[l := d]> h).

(** [copy(d)]: a new dictionary with the items of [d]. *)
Definition copy (h : store) (d : ref) : ref * store :=
  new_dict h (h !!! d).

(** [d[key] = value] *)
Definition dict_setitem (h : store) (d : ref) (key : string) (value : R) : store :=
  alter (insert key value) d h.

(** The dictionary [nominal_params] is built from. *)
Definition nominal_params_items : Scenario :=
  {[ "psi_ref" := 1.0%R; "v_ref" := 10.0%R; "a_ref" := 0.0%R; "omega_ref" := 0.0%R ]}.

Definition omega_ref_vals : list R := [(-1.5)%R; 1.5%R].

(** The body of [for omega_ref in omega_ref_vals], on the store and the
    list [scenarios]. *)
Definition scenario_loop_body (nominal_params : ref)
    (st : store * list ref) (omega_ref : R) : store * list ref :=
  let '(h, scenarios) := st in
  let '(s, h) := copy h nominal_params in
  let h := dict_setitem h s "omega_ref" omega_ref in
  (h, scenarios ++ [s]).

(** [scenarios = []] followed by the loop. *)
Definition build_scenarios (h : store) (nominal_params : ref) (vals : list R)
    : store * list ref :=
  foldl (scenario_loop_body nominal_params) (h, []) vals.

(** [doMain], from the definition of [nominal_params] to the end of the
    loop: the reference held by [nominal_params], the store and the list
    [scenarios].  The statements in between build [stcar] and
    [initial_conditions] and are not part of this model. *)
Definition doMain : ref * (store * list ref) :=
  let '(nominal_params, h) := new_dict ∅ nominal_params_items in
  (nominal_params, build_scenarios h nominal_params omega_ref_vals).

End StcarSCurve.

(** ** Inputs and regions the statements below refer to *)

(** A batch of one state. *)
Definition state1 (x y z vx vy vz : R) : Tensor R :=
  mkTensor [1; 6] [x; y; z; vx; vy; vz].

(** A mask over a batch of one. *)
Definition mask1 (b : bool) : Tensor bool := mkTensor [1] [b].

(** The equilibrium state: the origin, as a batch of one. *)
Definition x_eq : Tensor R := zeros [1; Crazyflie.n_dims].

(** The rows of a batch of states. *)
Definition rows {A} (x : Tensor A) : list (list A) :=
  match shape x with
  | [b; n] => chunks b n (data x)
  | _ => []
  end.

(** Every state of the batch lies in the box of [state_limits]. *)
Definition within_state_limits (x : Tensor R) : Prop :=
  ∃ upper lower, Crazyflie.state_limits = Ok (upper, lower) ∧
    Forall (λ row, Forall2 Rle (data lower) row ∧ Forall2 Rle row (data upper)) (rows x).


(** A state between the two radii, above the floor. *)
Definition x_overlap : Tensor R := state1 3.6 0 1 0 0 0.

(** A state on the floor of the safe region, at distance 0.3 from the
    origin. *)
Definition x_goal : Tensor R := state1 0 0 0.3 0 0 0.

(** * Properties *)

(** ** Scalars *)

Lemma Rleb_true (a b : R) : (a <= b)%R → Rleb a b = true.
Proof. intros H. unfold Rleb. by destruct (Rle_dec a b). Qed.

Lemma Rltb_true (a b : R) : (a < b)%R → Rltb a b = true.
Proof. intros H. unfold Rltb. by destruct (Rlt_dec a b). Qed.

Lemma Rltb_false (a b : R) : (b <= a)%R → Rltb a b = false.
Proof. intros H. unfold Rltb. destruct (Rlt_dec a b); [lra | done]. Qed.

Lemma Rltb_spec (a b : R) : Rltb a b = true ↔ (a < b)%R.
Proof.
  split; [| apply Rltb_true].
  unfold Rltb. by destruct (Rlt_dec a b).
Qed.

Lemma sqrt_le_bound (x c : R) : (0 <= c)%R → (x <= c * c)%R → (sqrt x <= c)%R.
Proof.
  intros Hc Hx. rewrite <- (sqrt_square c Hc). by apply sqrt_le_1_alt.
Qed.

Lemma sqrt_gt_bound (x c : R) : (0 <= c)%R → (c * c < x)%R → (c < sqrt x)%R.
Proof.
  intros Hc Hx. rewrite <- (sqrt_square c Hc) at 1.
  apply sqrt_lt_1_alt. split; [nra | done].
Qed.

(** ** Shapes *)

Lemma expandable_rev_refl (s : list nat) : expandable_rev s s = true.
Proof. induction s as [|a s IH]; simpl; [done |]. by rewrite Nat.eqb_refl, IH. Qed.

Lemma expandable_refl (s : list nat) : expandable s s = true.
Proof. apply expandable_rev_refl. Qed.

Lemma broadcast_shape_rev_refl (s : list nat) : broadcast_shape_rev s s = Some s.
Proof. induction s as [|a s IH]; simpl; [done |]. by rewrite Nat.eqb_refl, IH. Qed.

Lemma broadcast_shape_refl (s : list nat) : broadcast_shape s s = Some s.
Proof.
  unfold broadcast_shape. rewrite broadcast_shape_rev_refl. simpl.
  by rewrite reverse_involutive.
Qed.

(** An elementwise operation on operands of one shape returns a tensor
    of that shape. *)
Lemma tensor_binop_same_shape {A B C} (f : A → B → C) (a : Tensor A) (b : Tensor B) :
  shape a = shape b →
  ∃ r, tensor_binop f a b = Ok r ∧ shape r = shape a.
Proof.
  intros Hs. unfold tensor_binop, expand_to.
  rewrite <- Hs, broadcast_shape_refl, expandable_refl. simpl. eauto.
Qed.

(** A vector of [b] entries can be assigned to a column of a tensor
    whose first dimension is [b]. *)
Lemma expandable_strip_ones_vec (b : nat) : expandable (strip_ones [b]) [b] = true.
Proof.
  destruct b as [|[|b]]; try done.
  unfold expandable. simpl. by rewrite Nat.eqb_refl.
Qed.

Lemma setitem_dim12_column {A} (t v : Tensor A) (b d1 d2 i j : nat) :
  shape t = [b; d1; d2] → i < d1 → j < d2 → shape v = [b] →
  ∃ r, setitem_dim12 t i j v = Ok r ∧ shape r = [b; d1; d2].
Proof.
  intros Ht Hi Hj Hv. unfold setitem_dim12, setitem_dim1, expand_to.
  rewrite Ht. simpl.
  rewrite decide_True by done.
  rewrite decide_True by nia.
  rewrite Hv, expandable_strip_ones_vec. simpl. eauto.
Qed.

(** A column of a batch of [b] states is a vector of [b] entries. *)
Lemma index_dim1_column {A} (t : Tensor A) (b n i : nat) :
  shape t = [b; n] → i < n →
  ∃ v, index_dim1 t i = Ok v ∧ shape v = [b].
Proof.
  intros Ht Hi. unfold index_dim1. rewrite Ht.
  rewrite decide_True by done. eauto.
Qed.

(** A vector of two or more entries cannot be assigned to a view of
    shape [(b, 1)]: its last dimension is neither 1 nor equal. *)
Lemma not_expandable_vec_column (b : nat) :
  expandable (strip_ones [S (S b)]) [S (S b); 1] = false.
Proof. done. Qed.

(** ** In-place conjunction *)

Lemma concat_chunks {A} (n k : nat) (l : list A) :
  concat (chunks n k l) = take (n * k) l.
Proof.
  revert l. induction n as [|n IH]; intros l; simpl; [by rewrite take_0 |].
  by rewrite IH, take_take_drop.
Qed.

Lemma chunks_length_le {A} (n k : nat) (l : list A) :
  Forall (λ c, length c ≤ k) (chunks n k l).
Proof.
  revert l. induction n as [|n IH]; intros l; simpl; constructor; [| done].
  rewrite length_take. lia.
Qed.

(** Broadcasting to the shape the data already has changes nothing. *)
Lemma expand_data_same {A} (s : list nat) (d : list A) :
  length d ≤ numel s → expand_data s s d = d.
Proof.
  revert d. induction s as [|a s IH]; intros d Hd; simpl; [done |].
  rewrite Nat.eqb_refl.
  rewrite (Forall_fmap_ext_1 (expand_data s s) Datatypes.id).
  - rewrite list_fmap_id, concat_chunks. by apply take_ge.
  - eapply Forall_impl; [apply chunks_length_le |]. intros c Hc. by apply IH.
Qed.

(** [a.logical_and_(b)] for masks of one shape: the result has that
    shape, and an entry that is true in it is true in [a] and in [b]. *)
Lemma logical_and__entails (a b r : Tensor bool) :
  shape b = shape a → wf_tensor b → logical_and_ a b = Ok r →
  shape r = shape a ∧
  ∀ i, data r !! i = Some true → data a !! i = Some true ∧ data b !! i = Some true.
Proof.
  intros Hs Hb. unfold logical_and_, expand_to, pad_shape.
  rewrite Hs, expandable_refl, Nat.sub_diag. simpl.
  rewrite expand_data_same by (unfold wf_tensor in Hb; rewrite <- Hs; lia).
  intros [= <-]. simpl. split; [done |].
  intros i Hi. apply lookup_zip_with_Some in Hi as (x & y & Hxy & Hx & Hy).
  symmetry in Hxy. apply andb_true_iff in Hxy as [-> ->]. done.
Qed.

(** ** The region masks *)

Import Crazyflie.

Lemma safe_mask_args_state1 (a b c d e f : R) :
  safe_mask_args (state1 a b c d e f) =
  Ok [mask1 (Rleb c 4.0); mask1 (Rgeb c 0.3); mask1 (Rleb (vec_norm [a; b; c; d; e; f]) 4)].
Proof. reflexivity. Qed.

Lemma unsafe_mask_args_state1 (a b c d e f : R) :
  unsafe_mask_args (state1 a b c d e f) =
  Ok [mask1 (Rltb c 0.3); mask1 (Rgtb c 4.0); mask1 (Rgtb (vec_norm [a; b; c; d; e; f]) 3.5)].
Proof. reflexivity. Qed.

(** The call in [safe_mask] always has three positional arguments. *)
Lemma safe_mask_args_three (x : Tensor R) (args : list (Tensor bool)) :
  safe_mask_args x = Ok args → length args = 3.
Proof.
  unfold safe_mask_args. destruct (index_dim1 x Z); simpl; [| done].
  by intros [= <-].
Qed.

Lemma unsafe_mask_args_three (x : Tensor R) (args : list (Tensor bool)) :
  unsafe_mask_args x = Ok args → length args = 3.
Proof.
  unfold unsafe_mask_args. destruct (index_dim1 x Z); simpl; [| done].
  by intros [= <-].
Qed.

Lemma torch_logical_and_arity (args : list (Tensor bool)) :
  length args ≠ 2 → torch_logical_and args = Raise TypeError.
Proof. by destruct args as [|a [|b [|c args]]]. Qed.

Lemma torch_logical_or_arity (args : list (Tensor bool)) :
  length args ≠ 2 → torch_logical_or args = Raise TypeError.
Proof. by destruct args as [|a [|b [|c args]]]. Qed.

(** [safe_mask] returns for no input. *)
Lemma safe_mask_never_returns (x : Tensor R) : ¬ is_Ok (safe_mask x).
Proof.
  intros [m Hm]. unfold safe_mask in Hm.
  destruct (safe_mask_args x) as [args|e] eqn:Hargs; simpl in Hm; [| done].
  apply safe_mask_args_three in Hargs.
  rewrite torch_logical_and_arity in Hm by lia. done.
Qed.

Lemma safe_mask_batch (b : nat) (dat : list R) :
  safe_mask (mkTensor [b; 6] dat) = Raise TypeError.
Proof. reflexivity. Qed.

Lemma unsafe_mask_batch (b : nat) (dat : list R) :
  unsafe_mask (mkTensor [b; 6] dat) = Raise TypeError.
Proof. reflexivity. Qed.

Lemma unsafe_mask_never_a_tensor (x : Tensor R) (m : Tensor bool) :
  unsafe_mask x ≠ Ok (Some m).
Proof.
  unfold unsafe_mask.
  destruct (unsafe_mask_args x) as [args|e]; simpl; [| done].
  by destruct (torch_logical_or args).
Qed.

Lemma goal_mask_batch (b : nat) (dat : list R) :
  goal_mask (mkTensor [b; 6] dat) = Raise TypeError.
Proof.
  unfold goal_mask, logical_and_, expand_to. simpl.
  unfold expandable. simpl. by rewrite Nat.eqb_refl.
Qed.

Lemma goal_mask_never_returns (x : Tensor R) : ¬ is_Ok (goal_mask x).
Proof.
  intros [m Hm]. unfold goal_mask in Hm.
  destruct (index_dim1 x 0); simpl in Hm; [| done].
  destruct (logical_and_ _ _); simpl in Hm; [| done].
  destruct (safe_mask x) eqn:Hs; simpl in Hm; [| done].
  eapply safe_mask_never_returns. by eexists.
Qed.

(** C1 (disjointness of [safe_mask] and [unsafe_mask]): on the state
    [x_overlap], which lies within [state_limits], neither mask is
    computed: both calls raise [TypeError], because
    [torch.logical_and] and [torch.logical_or] are given three
    positional arguments.  The three conditions handed to each call do
    overlap at this state: all three safe conditions hold, and the third
    unsafe condition (norm above [unsafe_radius]) holds as well.
    [safe_mask] returns a mask for no input at all. *)
Theorem safe_unsafe_masks_at_overlap :
  within_state_limits x_overlap ∧
  (∀ x : Tensor R, ¬ is_Ok (safe_mask x)) ∧
  safe_mask x_overlap = Raise TypeError ∧
  unsafe_mask x_overlap = Raise TypeError ∧
  safe_mask_args x_overlap = Ok [mask1 true; mask1 true; mask1 true] ∧
  unsafe_mask_args x_overlap = Ok [mask1 false; mask1 false; mask1 true].
Proof.
  split_and!; try reflexivity.
  - eexists _, _. split; [reflexivity |].
    unfold rows, x_overlap, state1. simpl. repeat constructor; lra.
  - apply safe_mask_never_returns.
  - unfold x_overlap. rewrite safe_mask_args_state1.
    unfold Rgeb. rewrite !Rleb_true; [done | | lra | lra].
    unfold vec_norm. simpl. apply sqrt_le_bound; lra.
  - unfold x_overlap. rewrite unsafe_mask_args_state1.
    unfold Rgtb. rewrite Rltb_false by lra. rewrite Rltb_false by lra.
    rewrite Rltb_true; [done |].
    unfold vec_norm. simpl. apply sqrt_gt_bound; lra.
Qed.

(** C4 ([unsafe_mask] returns the mask of the unsafe region): for
    every batch of states of shape [(b, 6)] the call raises
    [TypeError]; for no input at all does [unsafe_mask] return a
    tensor, since its body has no [return]; and on the origin, whose
    height 0 is below the floor 0.3, the first condition handed to
    [torch.logical_or] holds, so the mask would have to be true there. *)
Theorem unsafe_mask_returns_no_mask :
  (∀ (b : nat) (dat : list R), unsafe_mask (mkTensor [b; 6] dat) = Raise TypeError) ∧
  (∀ (x : Tensor R) (m : Tensor bool), unsafe_mask x ≠ Ok (Some m)) ∧
  unsafe_mask_args (state1 0 0 0 0 0 0) = Ok [mask1 true; mask1 false; mask1 false].
Proof.
  split_and!.
  - apply unsafe_mask_batch.
  - apply unsafe_mask_never_a_tensor.
  - rewrite unsafe_mask_args_state1. unfold Rgtb.
    rewrite Rltb_true by lra. rewrite Rltb_false by lra.
    rewrite Rltb_false; [done |].
    unfold vec_norm. simpl. apply sqrt_le_bound; lra.
Qed.

(** C8 (goal region within safe region): for every batch of states of
    shape [(b, 6)], [goal_mask] raises [TypeError], raised by the call
    of [safe_mask] it makes, and so does [safe_mask]; on [x_goal] the
    state is near the goal and satisfies the three safe conditions, so
    both masks would have to be true there.  [goal_mask] returns a mask
    for no input at all. *)
Theorem goal_mask_raises :
  (∀ x : Tensor R, ¬ is_Ok (goal_mask x)) ∧
  (∀ (b : nat) (dat : list R), goal_mask (mkTensor [b; 6] dat) = Raise TypeError) ∧
  (∀ (b : nat) (dat : list R), safe_mask (mkTensor [b; 6] dat) = Raise TypeError) ∧
  tle (norm_last x_goal) 0.3 = mask1 true ∧
  safe_mask_args x_goal = Ok [mask1 true; mask1 true; mask1 true].
Proof.
  assert (Hn : (vec_norm [0; 0; 0.3; 0; 0; 0] <= 0.3)%R).
  { unfold vec_norm. simpl. apply sqrt_le_bound; lra. }
  split_and!.
  - apply goal_mask_never_returns.
  - apply goal_mask_batch.
  - apply safe_mask_batch.
  - unfold x_goal, state1, norm_last, tle, tmap, mask1. simpl.
    by rewrite Rleb_true.
  - unfold x_goal. rewrite safe_mask_args_state1.
    unfold Rgeb. rewrite !Rleb_true; [done | lra | lra | lra].
Qed.

(** ** The dynamics *)

(** For one state [_f] returns the velocities and the gravity term. *)
Lemma _f_state1 (x y z vx vy vz : R) (params : Scenario) :
  _f (state1 x y z vx vy vz) params
  = Ok (mkTensor [1; 6; 1] [vx; vy; vz; 0; 0; -9.81]%R).
Proof. reflexivity. Qed.

(** For two or more states the first assignment of [_f] fails: the
    view [f[:, X]] has shape [(b, 1)], the value [x[:, VX]] shape [(b,)]. *)
Lemma _f_batch_ge2 (b : nat) (dat : list R) (params : Scenario) :
  _f (mkTensor [S (S b); 6] dat) params = Raise RuntimeError.
Proof. reflexivity. Qed.

(** For one state [_f] returns a tensor of shape [(1, 6, 1)]. *)
Lemma _f_batch1 (dat : list R) (params : Scenario) :
  ∃ f, _f (mkTensor [1; 6] dat) params = Ok f ∧ shape f = [1; 6; 1].
Proof. eexists. split; reflexivity. Qed.

(** [_g] reaches the assignment that names [Crazuflie] and fails there. *)
Lemma _g_batch (b : nat) (dat : list R) (params : Scenario) (m : R) :
  params !! "m" = Some m →
  _g (mkTensor [b; 6] dat) params = Raise NameError.
Proof.
  intros Hm. unfold _g, dict_getitem. rewrite Hm.
  cbn [mbind result_bind shape0 shape].
  destruct (index_dim1_column (mkTensor [b; 6] dat) b 6 THETA)
    as (xt & -> & Hxt); [done | unfold THETA; lia |].
  destruct (index_dim1_column (mkTensor [b; 6] dat) b 6 PHI)
    as (xp & -> & Hxp); [done | unfold PHI; lia |].
  cbn [mbind result_bind].
  destruct (setitem_dim12_column (zeros [b; n_dims; n_controls])
              (tdiv_scalar (torch_sin xt) m) b 6 4 VX F)
    as (g1 & -> & Hg1); [done | unfold VX; lia | unfold F; lia | done |].
  destruct (tensor_binop_same_shape Rmult (tneg (torch_sin xp)) (torch_cos xt))
    as (v1 & Hv1 & Hs1); [simpl; congruence |].
  simpl in Hs1. unfold tmul. rewrite Hv1. cbn [mbind result_bind].
  destruct (setitem_dim12_column g1 (tdiv_scalar v1 m) b 6 4 VY F)
    as (g2 & -> & Hg2); [done | unfold VY; lia | unfold F; lia | simpl; congruence |].
  destruct (tensor_binop_same_shape Rmult (torch_cos xp) (torch_cos xt))
    as (v2 & -> & Hs2); [simpl; congruence |].
  reflexivity.
Qed.

Lemma _g_never_returns (x : Tensor R) (params : Scenario) : ¬ is_Ok (_g x params).
Proof.
  intros [g Hg]. unfold _g in Hg.
  repeat match type of Hg with
         | context [mbind _ ?r] => destruct r; simpl in Hg; try done
         end.
Qed.

(** C10 ([_f] does not depend on the scenario): for every state tensor
    and any two scenarios, [_f] gives the same result, be it a tensor
    or an exception. *)
Theorem _f_ignores_params (x : Tensor R) (params1 params2 : Scenario) :
  _f x params1 = _f x params2.
Proof. reflexivity. Qed.

(** C3 (shapes of [_f] and [_g]): for every batch of two or more
    states [_f] raises [RuntimeError]; for every batch size and every
    scenario that holds a mass, [_g] raises [NameError], and [_g]
    returns a tensor for no input at all; for a batch of one state [_f]
    returns a tensor of shape [(1, 6, 1)]. *)
Theorem _f_g_shape_failures :
  (∀ (x : Tensor R) (params : Scenario), ¬ is_Ok (_g x params)) ∧
  (∀ (b : nat) (dat : list R) (params : Scenario),
     _f (mkTensor [S (S b); 6] dat) params = Raise RuntimeError) ∧
  (∀ (b : nat) (dat : list R) (params : Scenario) (m : R),
     _g (mkTensor [b; 6] dat) (<["m" := m]> params) = Raise NameError) ∧
  (∀ (dat : list R) (params : Scenario),
     ∃ f, _f (mkTensor [1; 6] dat) params = Ok f ∧ shape f = [1; 6; 1]).
Proof.
  split_and!.
  - apply _g_never_returns.
  - apply _f_batch_ge2.
  - intros b dat params m. apply (_g_batch b dat _ m). apply lookup_insert_eq.
  - apply _f_batch1.
Qed.

(** C2 (equilibrium consistency): at the equilibrium state and for
    every mass [m], [_f] returns the gravity term alone and [u_eq] is
    the thrust [m * 9.81], but [_g] raises [NameError], so the
    closed-loop field [_f + _g @ u_eq] has no value. *)
Theorem equilibrium_field_not_evaluated (m dt controller_dt : R) :
  let params : Scenario := {[ "m" := m ]} in
  _f x_eq params = Ok (mkTensor [1; 6; 1] [0; 0; 0; 0; 0; -9.81]%R) ∧
  u_eq (ControlAffineSystem.mkSystem params dt controller_dt)
    = Ok (mkTensor [1; 4] [m * 9.81; 0; 0; 0]%R) ∧
  _g x_eq params = Raise NameError.
Proof.
  intros params. split_and!.
  - reflexivity.
  - unfold u_eq, dict_getitem. simpl.
    unfold params. by rewrite lookup_singleton_eq.
  - apply (_g_batch 1 _ _ m). apply lookup_singleton_eq.
Qed.

(** ** Parameter validation and construction *)

Lemma validate_params_present (params : Scenario) (m : R) :
  params !! "m" = Some m → validate_params params = Ok (Rgtb m 0).
Proof.
  intros Hm. unfold validate_params, dict_contains, dict_getitem.
  rewrite Hm. rewrite bool_decide_eq_true_2 by eauto. reflexivity.
Qed.

Lemma validate_params_absent (params : Scenario) :
  params !! "m" = None → validate_params params = Ok false.
Proof.
  intros Hm. unfold validate_params, dict_contains.
  rewrite Hm. rewrite bool_decide_eq_false_2; [done |].
  by intros [v Hv].
Qed.

(** C7 ([validate_params] as a predicate): for every scenario,
    [validate_params] returns a boolean and never raises; it returns
    [True] exactly when the scenario holds a mass under the key [m] that
    is greater than zero, and [False] when the key is absent. *)
Theorem validate_params_spec (params : Scenario) :
  (∃ b, validate_params params = Ok b) ∧
  (validate_params params = Ok true ↔ ∃ m, params !! "m" = Some m ∧ (m > 0)%R) ∧
  (params !! "m" = None → validate_params params = Ok false).
Proof.
  destruct (params !! "m") as [m|] eqn:Hm.
  - rewrite (validate_params_present params m Hm). split_and!; [eauto | | done].
    unfold Rgtb. split.
    + intros [= H]. apply Rltb_spec in H. exists m. split; [done | lra].
    + intros (m' & [= <-] & H). f_equal. apply Rltb_true. lra.
  - rewrite (validate_params_absent params Hm). split_and!; [eauto | | done].
    split; [done |]. by intros (m & ? & _).
Qed.

(** C5 (finite dynamics within [state_limits]): for a state inside the
    box of [state_limits] and a scenario that [validate_params]
    accepts, [_f] returns its tensor but the evaluation of [_g] raises
    [NameError]. *)
Theorem dynamics_fail_within_state_limits :
  let x := state1 0 0 1 0 0 0 in
  let params : Scenario := {[ "m" := 1%R ]} in
  within_state_limits x ∧
  validate_params params = Ok true ∧
  _f x params = Ok (mkTensor [1; 6; 1] [0; 0; 0; 0; 0; -9.81]%R) ∧
  _g x params = Raise NameError.
Proof.
  intros x params. split_and!.
  - eexists _, _. split; [reflexivity |].
    unfold rows, x, state1. simpl.
    repeat constructor; lra.
  - unfold params. rewrite (validate_params_present _ 1%R) by apply lookup_singleton_eq.
    unfold Rgtb. f_equal. apply Rltb_true. lra.
  - reflexivity.
  - apply (_g_batch 1 _ _ 1%R). apply lookup_singleton_eq.
Qed.

(** C6 (construction validates the scenario): whatever the constructor
    does after validation, constructing a [Crazyflie] with a scenario
    that has no key [m], or whose mass is not positive, raises
    [InvalidParameterError]; what follows the validation is not run. *)
Theorem init_rejects_invalid_params
    (finish_init : ControlAffineSystem.t → option (list Scenario) →
                   result ControlAffineSystem.t)
    (nominal_params : Scenario) (dt : R) (controller_dt : option R)
    (scenarios : option (list Scenario)) :
  (nominal_params !! "m" = None ∨
   ∃ m, nominal_params !! "m" = Some m ∧ (m <= 0)%R) →
  Crazyflie.__init__ finish_init nominal_params dt controller_dt scenarios
    = Raise InvalidParameterError.
Proof.
  intros [Hm | (m & Hm & Hle)]; unfold Crazyflie.__init__, ControlAffineSystem.__init__.
  - by rewrite (validate_params_absent _ Hm).
  - rewrite (validate_params_present _ m Hm). unfold Rgtb.
    by rewrite Rltb_false.
Qed.

(** With accepted parameters the rest of the constructor runs. *)
Lemma init_accepts_valid_params
    (finish_init : ControlAffineSystem.t → option (list Scenario) →
                   result ControlAffineSystem.t)
    (nominal_params : Scenario) (m dt : R) (controller_dt : option R)
    (scenarios : option (list Scenario)) :
  nominal_params !! "m" = Some m → (0 < m)%R →
  Crazyflie.__init__ finish_init nominal_params dt controller_dt scenarios
    = finish_init (ControlAffineSystem.mkSystem nominal_params dt (default dt controller_dt))
        scenarios.
Proof.
  intros Hm Hpos. unfold Crazyflie.__init__, ControlAffineSystem.__init__.
  rewrite (validate_params_present _ m Hm). unfold Rgtb.
  by rewrite Rltb_true.
Qed.

Lemma init_rejects_invalid_params_witness :
  Crazyflie.__init__ (λ s _, Ok s) ∅ 0.01%R None None = Raise InvalidParameterError ∧
  Crazyflie.__init__ (λ s _, Ok s) {[ "m" := (-1)%R ]} 0.01%R None None
    = Raise InvalidParameterError.
Proof.
  split.
  - apply init_rejects_invalid_params. left. apply lookup_empty.
  - apply init_rejects_invalid_params. right. exists (-1)%R.
    split; [apply lookup_singleton_eq | lra].
Defined.

(** ** The scenario list of [doMain] *)

Import StcarSCurve.

(** One pass through the loop body: objects that exist before it keep
    their items, and the appended scenario is a new object holding the
    items of [nominal_params] with [omega_ref] replaced. *)
Lemma scenario_loop_body_spec (np : ref) (h : store) (scenarios : list ref)
    (omega_ref : R) (d : Scenario) :
  h !! np = Some d →
  ∃ s h', scenario_loop_body np (h, scenarios) omega_ref = (h', scenarios ++ [s]) ∧
    (s ∉ dom h) ∧
    (∀ l, l ∈ dom h → h' !! l = h !! l) ∧
    h' !! s = Some (<["omega_ref" := omega_ref]> d).
Proof.
  intros Hnp. unfold scenario_loop_body, copy, new_dict, dict_setitem.
  set (s := fresh (dom h)).
  assert (Hs : s ∉ dom h) by apply is_fresh.
  eexists s, _. split_and!; [reflexivity | done | |].
  - intros l Hl. assert (s ≠ l) by (intros ->; done).
    by rewrite lookup_alter_ne, lookup_insert_ne.
  - rewrite lookup_alter_eq, lookup_insert_eq. simpl.
    by rewrite (lookup_total_correct _ _ _ Hnp).
Qed.

Lemma build_scenarios_spec (h : store) (np : ref) (d : Scenario) (vals : list R) :
  h !! np = Some d →
  ∃ h' scenarios, build_scenarios h np vals = (h', scenarios) ∧
    (∀ l, l ∈ dom h → h' !! l = h !! l) ∧
    Forall2 (λ s v, (s ∉ dom h) ∧ h' !! s = Some (<["omega_ref" := v]> d)) scenarios vals.
Proof.
  intros Hnp. unfold build_scenarios.
  induction vals as [|v vals IH] using rev_ind.
  - exists h, []. split_and!; [done | done | constructor].
  - destruct IH as (h1 & sc1 & Hfold & Hframe & Hsc).
    rewrite foldl_snoc, Hfold.
    assert (Hnp1 : h1 !! np = Some d).
    { rewrite Hframe; [done |]. apply elem_of_dom. eauto. }
    destruct (scenario_loop_body_spec np h1 sc1 v d Hnp1)
      as (s & h2 & -> & Hs & Hframe2 & Hlook).
    assert (Hsub : ∀ l, l ∈ dom h → l ∈ dom h1).
    { intros l Hl. apply elem_of_dom. rewrite Hframe by done. by apply elem_of_dom. }
    exists h2, (sc1 ++ [s]). split_and!; [done | |].
    + intros l Hl. rewrite Hframe2 by auto. auto.
    + apply Forall2_app.
      * eapply Forall2_impl; [exact Hsc |]. intros s' v' [Hs' Hl'].
        split; [done |]. rewrite Hframe2; [done |]. apply elem_of_dom. eauto.
      * constructor; [| constructor]. split; [| done].
        intros Hin. apply Hs. auto.
Qed.

(** C9 ([doMain] leaves [nominal_params] unchanged): after the loop
    that builds [scenarios], the object [nominal_params] refers to
    still holds the items it was built from ([psi_ref] 1.0, [v_ref]
    10.0, [a_ref] 0.0, [omega_ref] 0.0); the two scenarios are other
    objects, each holding those items with [omega_ref] replaced by -1.5
    and 1.5 in turn. *)
Theorem doMain_keeps_nominal_params :
  let '(nominal_params, (h, scenarios)) := doMain in
  h !! nominal_params = Some nominal_params_items ∧
  (∃ d, h !! nominal_params = Some d ∧
        d !! "psi_ref" = Some 1.0%R ∧ d !! "v_ref" = Some 10.0%R ∧
        d !! "a_ref" = Some 0.0%R ∧ d !! "omega_ref" = Some 0.0%R) ∧
  Forall2 (λ s v, s ≠ nominal_params ∧
                  h !! s = Some (<["omega_ref" := v]> nominal_params_items))
    scenarios omega_ref_vals.
Proof.
  unfold doMain, new_dict.
  set (np := fresh (dom (∅ : store))).
  set (h0 := <[np := nominal_params_items]> (∅ : store)).
  assert (Hnp : h0 !! np = Some nominal_params_items) by apply lookup_insert_eq.
  destruct (build_scenarios_spec h0 np _ omega_ref_vals Hnp)
    as (h & scenarios & -> & Hframe & Hsc).
  assert (Hdom : np ∈ dom h0) by (apply elem_of_dom; eauto).
  assert (Hkeep : h !! np = Some nominal_params_items) by (by rewrite Hframe).
  split_and!; [done | |].
  - exists nominal_params_items. split; [done |].
    unfold nominal_params_items. by simplify_map_eq.
  - eapply Forall2_impl; [exact Hsc |]. intros s v [Hs Hl].
    split; [| done]. by intros ->.
Qed.

(** * Further properties *)

(** ** The dynamics on single and ill-shaped states *)




(** X2 ([_f] on a tensor with too few columns): when the state tensor
    has no second dimension, or a second dimension of at most three
    entries, [_f] raises [IndexError]. *)
Theorem _f_too_few_columns (x : Tensor R) (params : Scenario) :
  (∀ d0 d1 rest, shape x = d0 :: d1 :: rest → d1 ≤ 3) →
  _f x params = Raise IndexError.
Proof.
  intros Hcols. unfold _f, shape0, index_dim1.
  destruct (shape x) as [|d0 [|d1 rest]] eqn:Hs; try reflexivity.
  specialize (Hcols d0 d1 rest eq_refl).
  cbn [mbind result_bind]. unfold VX.
  by rewrite (decide_False (P := 3 < d1)) by lia.
Qed.

Lemma _f_too_few_columns_witness :
  _f (mkTensor [2; 3] [1; 2; 3; 4; 5; 6]%R) ∅ = Raise IndexError.
Proof.
  apply _f_too_few_columns. intros d0 d1 rest [= _ <- _]. lia.
Defined.

(** X3 ([_g] without a mass): when the scenario has no key [m] and the
    state tensor has at least one dimension, [_g] raises [KeyError]:
    the mass is read before anything is computed from the state. *)
Theorem _g_missing_mass (x : Tensor R) (params : Scenario) :
  shape x ≠ [] → params !! "m" = None →
  _g x params = Raise KeyError.
Proof.
  intros Hx Hm. unfold _g, shape0, dict_getitem.
  destruct (shape x) as [|d0 rest]; [done |].
  cbn [mbind result_bind]. by rewrite Hm.
Qed.

Lemma _g_missing_mass_witness :
  _g (state1 0 0 1 0 0 0) {[ "mass" := 1%R ]} = Raise KeyError.
Proof.
  apply _g_missing_mass; [discriminate | reflexivity].
Defined.

(** X4 ([validate_params] looks at [m] only): adding or replacing any
    key other than [m] does not change the result of
    [validate_params]. *)
Theorem validate_params_other_keys (params : Scenario) (key : string) (value : R) :
  key ≠ "m"%string →
  validate_params (<[key := value]> params) = validate_params params.
Proof.
  intros Hkey.
  destruct (params !! "m") as [m|] eqn:Hm.
  - rewrite (validate_params_present params m Hm).
    apply validate_params_present. by rewrite lookup_insert_ne.
  - rewrite (validate_params_absent params Hm).
    apply validate_params_absent. by rewrite lookup_insert_ne.
Qed.

Lemma validate_params_other_keys_witness :
  validate_params (<["g" := 9.81%R]> {[ "m" := 1%R ]})
  = validate_params {[ "m" := 1%R ]}.
Proof. apply validate_params_other_keys. discriminate. Defined.



(** ** Limits and the distance to the goal *)

(** Membership of explicit rows in a box, one inequality per entry. *)
Ltac box_entries :=
  repeat first
    [ apply List.Forall_nil | apply List.Forall_cons
    | apply List.Forall2_nil | apply List.Forall2_cons | split ].

(** X6 ([state_limits] is a box): [state_limits] returns two vectors
    of [n_dims] entries, the lower limit is at most the upper limit in
    every entry, and the lower limit of the height [z] is zero. *)
Theorem state_limits_ordered :
  ∃ upper lower, state_limits = Ok (upper, lower) ∧
    shape upper = [n_dims] ∧ shape lower = [n_dims] ∧
    length (data upper) = n_dims ∧
    Forall2 Rle (data lower) (data upper) ∧
    data lower !! Z = Some 0%R.
Proof.
  eexists _, _. split; [reflexivity |]. simpl.
  split_and!; try reflexivity.
  box_entries; lra.
Qed.



Lemma length_chunks {A} (n k : nat) (l : list A) : length (chunks n k l) = n.
Proof. revert l. induction n as [|n IH]; intros l; simpl; [done |]. by rewrite IH. Qed.

Lemma concat_replicate_singleton {A} (n : nat) (c : A) :
  concat (replicate n [c]) = replicate n c.
Proof. induction n as [|n IH]; simpl; [done |]. by rewrite IH. Qed.

Lemma zip_with_replicate_r {A B C} (f : A → B → C) (l : list A) (n : nat) (c : B) :
  length l = n → zip_with f l (replicate n c) = (λ a, f a c) <$> l.
Proof.
  intros <-. induction l as [|a l IH]; simpl; [done |]. by rewrite IH.
Qed.

Lemma expand_data_scalar {A} (c : A) (b : nat) :
  expand_data [1] [b] [c] = replicate b c.
Proof.
  destruct b as [|[|b]]; try reflexivity.
  rewrite <- concat_replicate_singleton. reflexivity.
Qed.

(** A tensor with no dimension broadcasts to a vector by repetition. *)
Lemma expand_to_scalar {A} (c : A) (b : nat) :
  expand_to (mkTensor [] [c]) [b] = Ok (mkTensor [b] (replicate b c)).
Proof.
  unfold expand_to.
  change (expandable (shape (mkTensor [] [c])) [b]) with true.
  change (pad_shape (shape (mkTensor [] [c])) [b]) with [1].
  cbn [data]. by rewrite expand_data_scalar.
Qed.

(** Broadcasting a tensor to its own shape returns it. *)
Lemma expand_to_same {A} (s : list nat) (d : list A) :
  length d ≤ numel s → expand_to (mkTensor s d) s = Ok (mkTensor s d).
Proof.
  intros Hd. unfold expand_to, pad_shape. cbn [shape data].
  by rewrite expandable_refl, Nat.sub_diag, expand_data_same.
Qed.

Lemma vec_norm_nonneg (row : list R) : (0 <= vec_norm row)%R.
Proof. apply sqrt_pos. Qed.

Lemma norm_upper_limit : vec_norm [4; 4; 4; 8; 8; 8]%R = sqrt 240.
Proof. unfold vec_norm. simpl. f_equal. lra. Qed.

Lemma sqrt_240_pos : (0 < sqrt 240)%R.
Proof. apply sqrt_lt_R0. lra. Qed.

Lemma distance_to_goal_batch (b : nat) (dat : list R) :
  distance_to_goal (mkTensor [b; 6] dat)
  = Ok (mkTensor [b] ((λ row, vec_norm row / sqrt 240)%R <$> chunks b 6 dat)).
Proof.
  unfold distance_to_goal.
  change state_limits with
    (Ok (mkTensor [6] [4; 4; 4; 8; 8; 8]%R,
         mkTensor [6] [-1 * 4; -1 * 4; 0; -1 * 8; -1 * 8; -1 * 8]%R)).
  cbn [mbind result_bind fst].
  unfold tdiv, tensor_binop, norm_last, norm_all.
  cbn [shape data reverse rev_append numel foldr].
  change (broadcast_shape [b] []) with (Some [b]).
  rewrite Nat.mul_1_r.
  rewrite expand_to_same
    by (rewrite length_fmap, length_chunks; simpl; lia).
  rewrite expand_to_scalar. cbn [mbind result_bind shape data].
  rewrite norm_upper_limit.
  rewrite zip_with_replicate_r by (by rewrite length_fmap, length_chunks).
  rewrite <- list_fmap_compose. reflexivity.
Qed.

Lemma vec_norm_within_limits (a b c d e f : R) :
  (-4 <= a <= 4)%R → (-4 <= b <= 4)%R → (0 <= c <= 4)%R →
  (-8 <= d <= 8)%R → (-8 <= e <= 8)%R → (-8 <= f <= 8)%R →
  (vec_norm [a; b; c; d; e; f] <= sqrt 240)%R.
Proof.
  intros Ha Hb Hc Hd He Hf. unfold vec_norm. simpl.
  apply sqrt_le_1_alt. nra.
Qed.

(** X8 ([distance_to_goal] on a batch): for states of shape [(b, 6)]
    [distance_to_goal] returns a vector of [b] entries, the entry of a
    state being its norm divided by the norm of the upper state limit,
    [sqrt 240]; no entry is negative. *)
Theorem distance_to_goal_nonneg (b : nat) (dat : list R) :
  ∃ r, distance_to_goal (mkTensor [b; 6] dat) = Ok r ∧
       shape r = [b] ∧
       data r = (λ row, vec_norm row / sqrt 240)%R <$> rows (mkTensor [b; 6] dat) ∧
       Forall (λ v, 0 <= v)%R (data r).
Proof.
  eexists. split; [apply distance_to_goal_batch |].
  split_and!; [done | done |]. simpl.
  apply Forall_fmap, Forall_true. intros row. simpl.
  apply Rmult_le_pos; [apply vec_norm_nonneg |].
  left. apply Rinv_0_lt_compat, sqrt_240_pos.
Qed.

(** X9 ([distance_to_goal] within [state_limits]): for a batch of
    states that all lie within [state_limits], every entry of
    [distance_to_goal] is between 0 and 1. *)
Theorem distance_to_goal_le_1 (b : nat) (dat : list R) :
  within_state_limits (mkTensor [b; 6] dat) →
  ∃ r, distance_to_goal (mkTensor [b; 6] dat) = Ok r ∧
       Forall (λ v, 0 <= v <= 1)%R (data r).
Proof.
  intros (upper & lower & Hlim & Hrows).
  injection Hlim as <- <-.
  eexists. split; [apply distance_to_goal_batch |]. simpl.
  apply Forall_fmap. unfold rows in Hrows. simpl in Hrows.
  eapply Forall_impl; [exact Hrows |].
  intros row [Hlo Hup]. simpl.
  repeat (apply Forall2_cons_inv_l in Hlo as (? & ? & ? & Hlo & ->)).
  apply Forall2_nil_inv_l in Hlo as ->.
  repeat (apply Forall2_cons in Hup as [? Hup]).
  pose proof sqrt_240_pos as Hpos.
  split.
  - apply Rmult_le_pos; [apply vec_norm_nonneg |].
    left. by apply Rinv_0_lt_compat.
  - apply (Rmult_le_reg_r (sqrt 240)); [done |].
    unfold Rdiv. rewrite Rmult_assoc, Rinv_l by lra.
    rewrite Rmult_1_r, Rmult_1_l.
    apply vec_norm_within_limits; lra.
Qed.

Lemma distance_to_goal_le_1_witness :
  ∃ r, distance_to_goal (mkTensor [1; 6] [1; -2; 3; 4; -5; 6]%R) = Ok r ∧
       Forall (λ v, 0 <= v <= 1)%R (data r).
Proof.
  apply distance_to_goal_le_1.
  eexists _, _. split; [reflexivity |].
  unfold rows. simpl. box_entries; lra.
Defined.

(** ** The conditions of the region masks *)




(** ** The scenario objects of the loop *)

(** X12 (what the scenario loop builds): for any store in which
    [nominal_params] refers to a dictionary, and any list of values,
    the loop leaves that dictionary as it was and builds one scenario
    per value, in order; each scenario maps [omega_ref] to its value and
    every other key to what [nominal_params] maps it to. *)
Theorem build_scenarios_copies (h : store) (np : ref) (d : Scenario) (vals : list R) :
  h !! np = Some d →
  ∃ h' scenarios, build_scenarios h np vals = (h', scenarios) ∧
    h' !! np = Some d ∧
    Forall2 (λ s v, ∃ ds, h' !! s = Some ds ∧ ds !! "omega_ref" = Some v ∧
                          ∀ key, key ≠ "omega_ref"%string → ds !! key = d !! key)
      scenarios vals.
Proof.
  intros Hnp.
  destruct (build_scenarios_spec h np d vals Hnp) as (h' & scenarios & Hb & Hframe & Hsc).
  exists h', scenarios. split_and!; [done | |].
  - rewrite Hframe; [done |]. apply elem_of_dom. eauto.
  - eapply Forall2_impl; [exact Hsc |]. intros s v [_ Hs].
    eexists. split_and!; [exact Hs | apply lookup_insert_eq |].
    intros key Hkey. by rewrite lookup_insert_ne.
Qed.

Lemma build_scenarios_copies_witness :
  ∃ h' scenarios,
    build_scenarios {[ 7 := nominal_params_items ]} 7 [0.5%R; 0.25%R; 0.5%R]
      = (h', scenarios) ∧
    h' !! 7 = Some nominal_params_items ∧
    Forall2 (λ s v, ∃ ds, h' !! s = Some ds ∧ ds !! "omega_ref" = Some v ∧
                          ∀ key, key ≠ "omega_ref"%string →
                                 ds !! key = nominal_params_items !! key)
      scenarios [0.5%R; 0.25%R; 0.5%R].
Proof.
  apply build_scenarios_copies. apply lookup_singleton_eq.
Defined.

(** X13 (the scenarios are new objects): for any store and any list of
    values, the loop builds as many scenarios as there are values; they
    are pairwise distinct objects, none of which existed before; the
    store gains these objects and no other, and every object that
    existed before keeps its items. *)
Theorem build_scenarios_no_aliasing (h : store) (np : ref) (vals : list R) :
  ∃ h' scenarios, build_scenarios h np vals = (h', scenarios) ∧
    length scenarios = length vals ∧
    NoDup scenarios ∧
    (∀ s, s ∈ scenarios → s ∉ dom h) ∧
    (∀ l, l ∈ dom h' ↔ l ∈ dom h ∨ l ∈ scenarios) ∧
    (∀ l, l ∈ dom h → h' !! l = h !! l).
Proof.
  unfold build_scenarios.
  induction vals as [|v vals IH] using rev_ind.
  - exists h, []. split_and!; try done; [constructor | |].
    + by intros s Hs%elem_of_nil.
    + intros l. split; [auto |]. by intros [? | ?%elem_of_nil].
  - destruct IH as (h1 & sc1 & Hfold & Hlen & Hnd & Hfresh & Hdom & Hframe).
    rewrite foldl_snoc, Hfold.
    unfold scenario_loop_body, copy, new_dict, dict_setitem.
    set (s := fresh (dom h1)).
    assert (Hs : s ∉ dom h1) by apply is_fresh.
    assert (Hs1 : s ∉ dom h) by (intros Hin; apply Hs, Hdom; auto).
    assert (Hs2 : s ∉ sc1) by (intros Hin; apply Hs, Hdom; auto).
    eexists _, _. split; [reflexivity |].
    split_and!.
    + rewrite !length_app, Hlen. done.
    + apply NoDup_app. split_and!; [done | | apply NoDup_singleton].
      intros s' Hs' ->%list_elem_of_singleton. done.
    + intros s' [Hs' | ->%list_elem_of_singleton]%elem_of_app; auto.
    + intros l. rewrite dom_alter_L, dom_insert_L, elem_of_union, elem_of_singleton.
      rewrite Hdom, elem_of_app, list_elem_of_singleton. tauto.
    + intros l Hl. assert (s ≠ l) by (by intros ->).
      rewrite lookup_alter_ne, lookup_insert_ne by done. auto.
Qed.
